(** * Sea-ice concentration from AVHRR GAC: the estimator of [compute_sic.py]

    Shallow embedding of [clean_up_cloudmask], [compute_sic], [apply_mask],
    the mask composition of [main] and the Bayesian fusion and quality check
    of [calc_wic_prob_day_twi].

    Numbers.  The arrays of the program are taken to hold IEEE binary64
    values, numpy's default.  Every definition below is written once, over
    an interface [Number] of the operations the program uses, and read at
    two instances:
    - [binary64]: Rocq's primitive floats, bit for bit what numpy computes,
      with NaN, the infinities and rounding;
    - [exact]: the rationals, binary64 with rounding, overflow and the
      special values idealised away.
    Statements about masks and selection hold at every instance.  Statements
    that need the order and field laws are proved at [exact].

    Masked arrays.  The data numpy leaves under a mask are those its
    implementation leaves there ([numpy/ma/core.py]); [np.where], the
    [MaskedArray] constructor and boolean-index assignment read them. *)

From Stdlib Require Import ZArith QArith Qabs Bool List Lia Lqa Relations.
From Stdlib Require Import Floats Uint63.
Import ListNotations.

Set Implicit Arguments.
Set Warnings "-inexact-float".

(** ** Numbers *)

Class Number := {
  num : Type;
  of_Z : Z -> num;                       (* an integer literal, converted *)
  nadd : num -> num -> num;
  nsub : num -> num -> num;
  nmul : num -> num -> num;
  ndiv : num -> num -> num;
  nabs : num -> num;
  nltb : num -> num -> bool;             (* a < b  *)
  nleb : num -> num -> bool;             (* a <= b *)
  neqb : num -> num -> bool;             (* a == b *)
  isfinite : num -> bool;                (* np.isfinite *)
  fill_value : num;                      (* default fill of float arrays *)
  tiny : num                             (* np.finfo(float).tiny *)
}.

Definition ngtb {N : Number} (a b : num) : bool := nltb b a.   (* a > b  *)
Definition ngeb {N : Number} (a b : num) : bool := nleb b a.   (* a >= b *)

Definition float_of_Z (z : Z) : float :=
  match z with
  | Z0 => PrimFloat.zero
  | Zpos _ => PrimFloat.of_uint63 (Uint63.of_Z z)
  | Zneg p => PrimFloat.opp (PrimFloat.of_uint63 (Uint63.of_Z (Zpos p)))
  end.

#[export] Instance binary64 : Number := {|
  num := float;
  of_Z := float_of_Z;
  nadd := PrimFloat.add;
  nsub := PrimFloat.sub;
  nmul := PrimFloat.mul;
  ndiv := PrimFloat.div;
  nabs := PrimFloat.abs;
  nltb := PrimFloat.ltb;
  nleb := PrimFloat.leb;
  neqb := PrimFloat.eqb;
  isfinite := PrimFloat.is_finite;
  fill_value := 1e20%float;
  tiny := 0x1p-1022%float
|}.

#[export] Instance exact : Number := {|
  num := Q;
  of_Z := inject_Z;
  nadd := Qplus;
  nsub := Qminus;
  nmul := Qmult;
  ndiv := Qdiv;
  nabs := Qabs;
  nltb := fun a b => negb (Qle_bool b a);
  nleb := Qle_bool;
  neqb := Qeq_bool;
  isfinite := fun _ => true;
  fill_value := inject_Z (10 ^ 20);
  tiny := 1 / inject_Z (2 ^ 1022)
|}.

(** ** Masked values (numpy.ma)

    A masked array pairs a data array with a boolean mask, [true] meaning
    invalid.  All the operations the estimator applies are elementwise, so
    they are given on one element. *)

Record masked (A : Type) : Type := Masked { data : A; mask : bool }.

(** A plain [ndarray] operand carries no mask. *)
Definition plain {A} (x : A) : masked A := Masked x false.

(** [a + b], [a * b], [a - b] on masked arrays
    ([numpy.ma.core._MaskedBinaryOperation]): the masks are or-ed and, where
    the result is masked, its data revert to those of the first operand. *)
Definition ma_binop {A} (f : A -> A -> A) (a b : masked A) : masked A :=
  let m := mask a || mask b in
  Masked (if m then data a else f (data a) (data b)) m.

(** [a < b], [a > b], [a <= b], [a >= b]: the ufunc runs on the data and
    the masks are or-ed. *)
Definition ma_cmp {A} (f : A -> A -> bool) (a b : masked A) : masked bool :=
  Masked (f (data a) (data b)) (mask a || mask b).

(** [a == b] ([MaskedArray.__eq__]): as [ma_cmp], except that under the
    mask two elements are equal only when both are masked. *)
Definition ma_eq {A} (eqb : A -> A -> bool) (a b : masked A) : masked bool :=
  let m := mask a || mask b in
  Masked (if m then Bool.eqb (mask a) (mask b) else eqb (data a) (data b)) m.

Section MaskedNumbers.
Context {N : Number}.

(** The domain of [numpy.ma.divide] ([_DomainSafeDivide]):
    [abs(a) * tiny >= abs(b)]. *)
Definition domain_safe_divide (a b : num) : bool :=
  ngeb (nmul (nabs a) tiny) (nabs b).

(** [a / b] on masked arrays ([_DomainedBinaryOperation]): masked where an
    operand is, where the quotient is not finite and where the domain test
    fails; under the mask the data revert to the numerator. *)
Definition ma_divide (a b : masked num) : masked num :=
  let result := ndiv (data a) (data b) in
  let m := negb (isfinite result) || domain_safe_divide (data a) (data b)
           || mask a || mask b in
  Masked (if m then data a else result) m.

(** [np.ma.fix_invalid]: NaN and infinities are masked and their data
    replaced by the fill value. *)
Definition fix_invalid (a : masked num) : masked num :=
  let invalid := negb (isfinite (data a)) in
  Masked (if invalid then fill_value else data a) (mask a || invalid).

(** [np.where(c, x, y)] reads the data of its three arguments and returns a
    plain array: the masks are dropped. *)
Definition np_where {A} (c : masked bool) (x y : A) : A :=
  if data c then x else y.

(** ** The SIC estimator, [compute_sic] *)

(** One row of the coefficient table, [coeffs[i]]: columns 0, 1 and 2. *)
Definition coeff_row : Type := (num * num * num)%type.
Definition col1 (r : coeff_row) : num := snd (fst r).
Definition col2 (r : coeff_row) : num := snd r.

Definition water_threshold : Z := 3.

(** Lines 96-97. *)
Definition ice_mean_of (row : coeff_row) : masked num :=
  fix_invalid (Masked (col1 row) (neqb (col1 row) (of_Z 0))).

(** Lines 98-99. *)
Definition ice_std_raw (row : coeff_row) : masked num :=
  fix_invalid (plain (col2 row)).

(** Line 100: [np.where(ice_std >= ice_mean, ice_mean/3, ice_std)], a plain
    array. *)
Definition ice_std_of (row : coeff_row) : num :=
  let ice_mean := ice_mean_of row in
  let ice_std := ice_std_raw row in
  np_where (ma_cmp ngeb ice_std ice_mean)
           (data (ma_divide ice_mean (plain (of_Z 3))))
           (data ice_std).

Definition cm_is (cloudmask : masked Z) (k : Z) : masked bool :=
  ma_eq Z.eqb cloudmask (plain k).

(** Line 103, the exclusion mask [mask]. *)
Definition exclusion_mask (dat : masked num) (cloudmask : masked Z)
    (ice_std : num) (soz : masked Z) : masked bool :=
  let or_ := ma_binop orb in
  or_ (or_ (or_ (or_ (or_ (cm_is cloudmask 2) (cm_is cloudmask 3))
                     (cm_is cloudmask 0))
                (cm_is cloudmask 5))
           (ma_cmp Z.gtb soz (plain 89%Z)))
      (ma_binop andb (ma_cmp ngtb dat (plain (of_Z 3)))
                     (ma_cmp nltb dat (plain (ndiv ice_std (of_Z 2))))).

(** Line 104. *)
Definition water_mask (dat : masked num) (cloudmask : masked Z) : masked bool :=
  ma_binop andb (cm_is cloudmask 1)
                (ma_cmp nltb dat (plain (of_Z (water_threshold + 2)))).

(** Line 107: the denominator [ice_mean - ice_std/2], and the masked
    quotient before the selections. *)
Definition anchor (row : coeff_row) : masked num :=
  ma_binop nsub (ice_mean_of row) (plain (ndiv (ice_std_of row) (of_Z 2))).

Definition raw_sic (dat : masked num) (row : coeff_row) : masked num :=
  ma_divide (ma_binop nmul (plain (of_Z 100)) dat) (anchor row).

(** Lines 108-110, plain arrays. *)
Definition sic_values (dat : masked num) (cloudmask : masked Z)
    (row : coeff_row) : num :=
  let sic := raw_sic dat row in
  let sic := np_where (ma_cmp ngtb sic (plain (of_Z 100))) (of_Z 100)
                      (data sic) in
  let sic := np_where (ma_cmp nleb dat (plain (of_Z water_threshold)))
                      (of_Z 0) sic in
  np_where (ma_eq Bool.eqb (water_mask dat cloudmask) (plain true))
           (of_Z 0) sic.

(** Line 112: [np.ma.array(sic, mask = (cloudmask.mask + mask))].  The sum
    is a masked array; the constructor reads its data. *)
Definition compute_sic_px (dat : masked num) (cloudmask : masked Z)
    (row : coeff_row) (soz : masked Z) : masked num :=
  let m := exclusion_mask dat cloudmask (ice_std_of row) soz in
  Masked (sic_values dat cloudmask row)
         (data (ma_binop orb (plain (mask cloudmask)) m)).

End MaskedNumbers.

(** ** Arrays

    A 2-D [ndarray]: its shape and its elements by row and column. *)

Record array (A : Type) : Type :=
  Array { shape : nat * nat; item : nat -> nat -> A }.

Definition pixel : Type := (nat * nat)%type.

Definition pixel_eqb (p q : pixel) : bool :=
  (fst p =? fst q)%nat && (snd p =? snd q)%nat.

Definition shape_eqb (s t : nat * nat) : bool := pixel_eqb s t.

(** The indices of an array of shape [s], in raster order. *)
Definition pixels (s : nat * nat) : list pixel :=
  list_prod (seq 0 (fst s)) (seq 0 (snd s)).

Definition item_at {A} (a : array A) (p : pixel) : A := item a (fst p) (snd p).

(** An array literal, row by row. *)
Definition of_rows {A} (d : A) (rows : list (list A)) : array A :=
  Array (length rows, length (hd [] rows))
        (fun r c => nth c (nth r rows []) d).

(** ** Connected components, [scipy.ndimage.label] and [scipy.ndimage.sum]

    [ndimage.label(input)] numbers the connected components of the true
    elements of [input], from 1, and gives 0 to the background.  Two elements
    are neighbours according to the structuring element; the default one, used
    when [structure] is not passed, is the cross
    [[0,1,0],[1,1,1],[0,1,0]]: neighbours share an edge. *)

Definition memb (p : pixel) (l : list pixel) : bool := existsb (pixel_eqb p) l.

(** The default structuring element of [ndimage.label]. *)
Definition adj4 (p q : pixel) : bool :=
  ((fst p =? fst q)%nat
   && ((S (snd p) =? snd q)%nat || (S (snd q) =? snd p)%nat))
  || ((snd p =? snd q)%nat
      && ((S (fst p) =? fst q)%nat || (S (fst q) =? fst p)%nat)).


Section Components.
Variable adj : pixel -> pixel -> bool.

(** The foreground of [input]. *)
Definition foreground (input : array bool) : list pixel :=
  filter (item_at input) (pixels (shape input)).

(** One round of flood fill over the foreground [fg]. *)
Definition grow_step (fg comp : list pixel) : list pixel :=
  comp ++ filter (fun q => negb (memb q comp) && existsb (adj q) comp) fg.

Fixpoint grow (fg : list pixel) (n : nat) (comp : list pixel) : list pixel :=
  match n with
  | O => comp
  | S n' => grow fg n' (grow_step fg comp)
  end.

(** The component of [p]. *)
Definition component (fg : list pixel) (p : pixel) : list pixel :=
  grow fg (length fg) [p].

(** The first foreground element, in raster order, of the component of [p]. *)
Definition representative (fg : list pixel) (p : pixel) : pixel :=
  hd p (filter (fun q => memb q (component fg p)) fg).

Definition representatives (fg : list pixel) : list pixel :=
  filter (fun p => pixel_eqb (representative fg p) p) fg.

Fixpoint index_of (p : pixel) (l : list pixel) : nat :=
  match l with
  | [] => O
  | q :: l' => if pixel_eqb p q then O else S (index_of p l')
  end.

(** Components are numbered in the raster order of their first element. *)
Definition label_with (input : array bool) : array nat * nat :=
  let fg := foreground input in
  let reps := representatives fg in
  (Array (shape input)
         (fun r c => if memb (r, c) fg
                     then S (index_of (representative fg (r, c)) reps)
                     else O),
   length reps).

End Components.

Definition ndimage_label : array bool -> array nat * nat := label_with adj4.

(** What a labelling is meant to compute: two foreground elements are
    linked when they are neighbours, connected when a chain of links joins
    them; a component is a class of connected elements. *)
Section Connectivity.
Variable adj : pixel -> pixel -> bool.
Variable fg : list pixel.

Definition linked (p q : pixel) : Prop :=
  In p fg /\ In q fg /\ adj p q = true.

Definition connected : pixel -> pixel -> Prop :=
  clos_refl_trans pixel linked.

(** A set of elements that no link leaves. *)
Definition closed (comp : list pixel) : Prop :=
  forall s q, In s comp -> In q fg -> adj q s = true -> In q comp.

(** [p] is a foreground element whose component has more than 10
    elements. *)
Definition in_large_component (p : pixel) : Prop :=
  In p fg
  /\ exists comp : list pixel,
       NoDup comp /\ (forall q, In q comp <-> connected p q)
       /\ (10 < length comp)%nat.

End Connectivity.

(** [ndimage.sum(input, labels, index)]: for each [i] of [index], the sum
    of [input] over the elements labelled [i]; here [input] is boolean, each
    true element counting 1. *)
Definition ndimage_sum (input : array bool) (labels : array nat)
    (index : list nat) : list nat :=
  map (fun i => length (filter (fun p => item_at input p
                                         && (item_at labels p =? i)%nat)
                               (pixels (shape input))))
      index.

(** ** The cloud-mask cleaner, [clean_up_cloudmask] *)

Section Cleaner.
Context {N : Number}.

(** Line 59, [np.where(((cloudmask==1) * (lats>80))==True, True, False)]. *)
Definition polar_water (cloudmask : masked Z) (lat : masked num) : bool :=
  np_where (ma_eq Bool.eqb
              (ma_binop andb (cm_is cloudmask 1)
                             (ma_cmp ngtb lat (plain (of_Z 80))))
              (plain true))
           true false.

Definition water_above_80 (cloudmask : array (masked Z))
    (lats : array (masked num)) : array bool :=
  Array (shape cloudmask)
        (fun r c => polar_water (item cloudmask r c) (item lats r c)).

(** Lines 60-66 for a given labelling function; [None] stands for the
    [ValueError] of operands whose shapes differ (broadcasting of a
    dimension of length 1 is left out: the grids of one scene have one
    shape). *)
Definition clean_up_with (label : array bool -> array nat * nat)
    (cloudmask : array (masked Z)) (lats : array (masked num))
    : option (array (masked Z)) :=
  if shape_eqb (shape cloudmask) (shape lats) then
    let sub := water_above_80 cloudmask lats in
    let '(labels, nlabels) := label sub in
    let sizes := ndimage_sum sub labels (seq 0 (nlabels + 1)) in
    let mask_sizes := map (fun s => (10 <? s)%nat) sizes in
    let remove_pixels r c := nth (item labels r c) mask_sizes false in
    Some (Array (shape cloudmask)
            (fun r c => Masked (if remove_pixels r c then 0%Z
                                else data (item cloudmask r c))
                               (mask (item cloudmask r c))))
  else None.

Definition clean_up_cloudmask := clean_up_with ndimage_label.

End Cleaner.

(** ** [compute_sic] and the pipeline of [main] on whole arrays *)

Definition bind {A B} (o : option A) (f : A -> option B) : option B :=
  match o with Some a => f a | None => None end.

Notation "x <- o ;; k" := (bind o (fun x => k))
  (at level 61, o at next level, right associativity).

Section Pipeline.
Context {N : Number}.

(** [coeffs[i]] for one index: numpy counts a negative index from the end
    and raises [IndexError] outside [-n, n). *)
Definition take_row (coeffs : list coeff_row) (i : Z) : option coeff_row :=
  let n := Z.of_nat (length coeffs) in
  if (0 <=? i)%Z && (i <? n)%Z then nth_error coeffs (Z.to_nat i)
  else if (- n <=? i)%Z && (i <? 0)%Z then nth_error coeffs (Z.to_nat (i + n))
  else None.

Definition is_some {A} (o : option A) : bool :=
  match o with Some _ => true | None => false end.

(** [compute_sic(data, cloudmask, coeffs, coeff_indices, lons, lats, soz)];
    [lons] and [lats] are not read.  [None] stands for the exception numpy
    raises: operands of different shapes, or an index outside the table. *)
Definition compute_sic (dat : array (masked num)) (cloudmask : array (masked Z))
    (coeffs : list coeff_row) (coeff_indices : array Z)
    (lons lats : array (masked num)) (soz : array (masked Z))
    : option (array (masked num)) :=
  if shape_eqb (shape dat) (shape cloudmask)
     && shape_eqb (shape coeff_indices) (shape cloudmask)
     && shape_eqb (shape soz) (shape cloudmask)
     && forallb (fun p => is_some (take_row coeffs (item_at coeff_indices p)))
                (pixels (shape cloudmask))
  then Some (Array (shape cloudmask)
               (fun r c =>
                  match take_row coeffs (item coeff_indices r c) with
                  | Some row =>
                      compute_sic_px (item dat r c) (item cloudmask r c) row
                                     (item soz r c)
                  | None => Masked (of_Z 0) true
                  end))
  else None.

(** Lines 232-235 of [main], on the angles already cast to [int16]:
    [np.where((SOZ >= SOZ_LOWLIM) * (SOZ <= SOZ_HIGHLIM), SOZ, 0)]. *)
Definition SOZ_LOWLIM : Z := 0.
Definition SOZ_HIGHLIM : Z := 89.

Definition coeff_index (SOZ : masked Z) : Z :=
  np_where (ma_binop andb (ma_cmp Z.geb SOZ (plain SOZ_LOWLIM))
                          (ma_cmp Z.leb SOZ (plain SOZ_HIGHLIM)))
           (data SOZ) 0%Z.

(** Line 245,
    [np.ma.array(sic, mask = (sic.mask == True) + (extent_mask == False))]:
    the constructor keeps the mask [sic] already has. *)
Definition mask_extent_px (sic : masked num) (extent : bool) : masked num :=
  Masked (data sic)
         ((Bool.eqb (mask sic) true || Bool.eqb extent false) || mask sic).

(** [apply_mask], lines 176-182, on one element. *)
Definition apply_mask_px (mask_array : bool) (data_array : masked num)
    : masked num :=
  let masked_data_array :=
    if Bool.eqb mask_array true then of_Z 200 else data data_array in
  let original_mask := mask data_array in
  let combined_mask :=
    if Bool.eqb mask_array true then false else original_mask in
  Masked masked_data_array combined_mask.

Definition apply_mask (mask_array : array bool)
    (data_array : array (masked num)) : option (array (masked num)) :=
  if shape_eqb (shape mask_array) (shape data_array)
  then Some (Array (shape data_array)
               (fun r c => apply_mask_px (item mask_array r c)
                                         (item data_array r c)))
  else None.

Definition mask_extent (sic : array (masked num)) (extent_mask : array bool)
    : option (array (masked num)) :=
  if shape_eqb (shape extent_mask) (shape sic)
  then Some (Array (shape sic)
               (fun r c => mask_extent_px (item sic r c)
                                          (item extent_mask r c)))
  else None.

(** [main], lines 224-254, from the arrays read from the files to the
    field handed to [save_sic]. *)
Definition main_sic (vis09 lons lats : array (masked num))
    (cloudmask SOZ : array (masked Z)) (mean_coeffs : list coeff_row)
    (extent_mask land_mask : array bool) : option (array (masked num)) :=
  let coeff_indices :=
    Array (shape SOZ) (fun r c => coeff_index (item SOZ r c)) in
  cloudmask <- clean_up_cloudmask cloudmask lats ;;
  sic <- compute_sic vis09 cloudmask mean_coeffs coeff_indices lons lats SOZ ;;
  sic <- mask_extent sic extent_mask ;;
  apply_mask land_mask sic.

End Pipeline.

(** ** The Bayesian fusion and the quality check of [calc_wic_prob_day_twi]

    Lines 276-416 compute, from the bands and the coefficient table, the
    likelihood arrays [pVAR1g*], [pVAR2g*], [pVAR3g*] (each a value of
    [normalpdf]), the index [useVAR3] and the flag [anyVAR3].  Lines 418-458,
    embedded here, are elementwise in these arrays; [ma.is_masked(A06)] is
    one boolean for the whole array. *)

Section Classifier.
Context {N : Number}.

(** The likelihoods of one feature given ice, water and cloud. *)
Record likelihoods : Type :=
  Likelihoods { gi : masked num; gw : masked num; gc : masked num }.

(** The triple [(pigobs, pcgobs, pwgobs)] the function returns. *)
Record posteriors : Type :=
  Posteriors { pigobs : masked num; pcgobs : masked num; pwgobs : masked num }.

Definition useA06 : bool := true.
Definition prob_undef : num := of_Z (-999).

(** [a[indx] = value]: where the data of the boolean index are true, the
    element takes the data and the mask of the value. *)
Definition setitem {A} (indx : masked bool) (value old : masked A) : masked A :=
  if data indx then value else old.

Definition mul_ := ma_binop nmul.
Definition add_ := ma_binop nadd.

(** Lines 422-431. *)
Definition stage_a (pVAR1 pVAR2 : likelihoods) : posteriors :=
  if useA06 then
    let psumVAR12 := add_ (add_ (mul_ (gi pVAR1) (gi pVAR2))
                                (mul_ (gw pVAR1) (gw pVAR2)))
                          (mul_ (gc pVAR1) (gc pVAR2)) in
    Posteriors (ma_divide (mul_ (gi pVAR1) (gi pVAR2)) psumVAR12)
               (ma_divide (mul_ (gc pVAR1) (gc pVAR2)) psumVAR12)
               (ma_divide (mul_ (gw pVAR1) (gw pVAR2)) psumVAR12)
  else
    let psumVAR1 := add_ (add_ (gi pVAR1) (gw pVAR1)) (gc pVAR1) in
    Posteriors (ma_divide (gi pVAR1) psumVAR1)
               (ma_divide (gc pVAR1) psumVAR1)
               (ma_divide (gw pVAR1) psumVAR1).

(** Lines 435-445. *)
Definition stage_b (pVAR1 pVAR2 pVAR3 : likelihoods) (anyVAR3 : bool)
    (useVAR3 : masked bool) (p : posteriors) : posteriors :=
  if anyVAR3 then
    if useA06 then
      let psumVAR123 :=
        add_ (add_ (mul_ (mul_ (gi pVAR1) (gi pVAR2)) (gi pVAR3))
                   (mul_ (mul_ (gw pVAR1) (gw pVAR2)) (gw pVAR3)))
             (mul_ (mul_ (gc pVAR1) (gc pVAR2)) (gc pVAR3)) in
      Posteriors
        (setitem useVAR3
           (ma_divide (mul_ (mul_ (gi pVAR1) (gi pVAR2)) (gi pVAR3)) psumVAR123)
           (pigobs p))
        (setitem useVAR3
           (ma_divide (mul_ (mul_ (gc pVAR1) (gc pVAR2)) (gc pVAR3)) psumVAR123)
           (pcgobs p))
        (setitem useVAR3
           (ma_divide (mul_ (mul_ (gw pVAR1) (gw pVAR2)) (gw pVAR3)) psumVAR123)
           (pwgobs p))
    else
      let psumVAR123 :=
        add_ (add_ (mul_ (gi pVAR1) (gi pVAR3)) (mul_ (gw pVAR1) (gw pVAR3)))
             (mul_ (gc pVAR1) (gc pVAR3)) in
      Posteriors
        (setitem useVAR3 (ma_divide (mul_ (gi pVAR1) (gi pVAR3)) psumVAR123)
                 (pigobs p))
        (setitem useVAR3 (ma_divide (mul_ (gc pVAR1) (gc pVAR3)) psumVAR123)
                 (pcgobs p))
        (setitem useVAR3 (ma_divide (mul_ (gw pVAR1) (gw pVAR3)) psumVAR123)
                 (pwgobs p))
  else p.

(** [(p > 1.0)*(p < 0.0)]. *)
Definition out_of_range (p : masked num) : masked bool :=
  ma_binop andb (ma_cmp ngtb p (plain (of_Z 1)))
                (ma_cmp nltb p (plain (of_Z 0))).

(** Lines 449-452.  [falsevalue *= x] is the in-place product: the masks
    are or-ed and the data under the mask are left as they were, as in
    [ma_binop]. *)
Definition falsevalue (p : posteriors) (A06_is_masked : bool) : masked bool :=
  let fv := out_of_range (pwgobs p) in
  let fv := ma_binop andb fv (out_of_range (pigobs p)) in
  let fv := ma_binop andb fv (out_of_range (pcgobs p)) in
  ma_binop andb fv (plain A06_is_masked).

(** Lines 454-456. *)
Definition quality_check (p : posteriors) (A06_is_masked : bool) : posteriors :=
  let fv := falsevalue p A06_is_masked in
  Posteriors (setitem fv (plain prob_undef) (pigobs p))
             (setitem fv (plain prob_undef) (pcgobs p))
             (setitem fv (plain prob_undef) (pwgobs p)).

(** Lines 418-458 on one element. *)
Definition calc_wic_prob_px (pVAR1 pVAR2 pVAR3 : likelihoods) (anyVAR3 : bool)
    (useVAR3 : masked bool) (A06_is_masked : bool) : posteriors :=
  quality_check
    (stage_b pVAR1 pVAR2 pVAR3 anyVAR3 useVAR3 (stage_a pVAR1 pVAR2))
    A06_is_masked.

(** [ma.is_masked(A06)]: some element of the array is masked. *)
Definition is_masked {A} (a : array (masked A)) : bool :=
  existsb (fun p => mask (item_at a p)) (pixels (shape a)).

End Classifier.

(** ** Conditions read off the estimator, and example inputs *)

Section Conditions.
Context {N : Number}.



(** A table of 91 angle bins holding the same mean and standard deviation. *)
Definition constant_table (mean std : num) : list coeff_row :=
  map (fun a => (of_Z (Z.of_nat a), mean, std)) (seq 0 91).

(** An array of one element. *)
Definition single {A} (x : A) : array A := Array (1, 1)%nat (fun _ _ => x).

(** The exclusion conditions named on line 103, read on the data. *)
Definition named_exclusion (dat : masked num) (cloudmask : masked Z)
    (row : coeff_row) (soz : masked Z) : bool :=
  (data cloudmask =? 2)%Z || (data cloudmask =? 3)%Z
  || (data cloudmask =? 0)%Z || (data cloudmask =? 5)%Z
  || (data soz >? 89)%Z
  || (ngtb (data dat) (of_Z 3)
      && nltb (data dat) (ndiv (ice_std_of row) (of_Z 2))).

End Conditions.

(** Cloud masks without masked elements, at latitude 85 throughout.  In the
    first, a row of 6 and a row of 5 clear/water elements touch by a corner
    only.  In the second, a block of 12 and a pair are apart. *)
Definition cloudmask_of_rows (rows : list (list Z)) : array (masked Z) :=
  of_rows (plain 0%Z) (map (map (@plain Z)) rows).


Definition large_and_small_blobs : array (masked Z) :=
  cloudmask_of_rows
    [[1;1;1;1;0;1];
     [1;1;1;1;0;1];
     [1;1;1;1;0;4]]%Z.

Definition polar_lats (s : nat * nat) : array (masked (@num binary64)) :=
  Array s (fun _ _ => plain 85%float).

(** The data of a cloud mask, row by row. *)
Definition rows_of (a : array (masked Z)) : list (list Z) :=
  map (fun r => map (fun c => data (item a r c)) (seq 0 (snd (shape a))))
      (seq 0 (fst (shape a))).


Section ClassifierConditions.
Context {N : Number}.




End ClassifierConditions.


(** ** The bands and the availability flags of [calc_wic_prob_day_twi] *)

Section Availability.
Context {N : Number}.


(** The literal [0.00001]: the quotient [1/100000], correctly rounded. *)
Definition small : num := ndiv (of_Z 1) (of_Z 100000).

(** [np.invert(a)]: the ufunc runs on the data, the mask is kept. *)
Definition ma_invert (a : masked bool) : masked bool :=
  Masked (negb (data a)) (mask a).

Definition and_ := ma_binop andb.

(** The angle window [(SOZ > SOZ_LOWLIM) * (SOZ < SOZ_HIGHLIM)]. *)
Definition in_daylight (SOZ : masked Z) : masked bool :=
  and_ (ma_cmp Z.gtb SOZ (plain SOZ_LOWLIM))
       (ma_cmp Z.ltb SOZ (plain SOZ_HIGHLIM)).

(** Lines 291-293; [u *= x] is the in-place product of masked arrays. *)
Definition useA0906 (A06 A09 : masked num) (SOZ : masked Z) : masked bool :=
  let u := and_ (ma_cmp ngeb A06 (plain small))
                (ma_cmp ngeb A09 (plain small)) in
  let u := and_ u (and_ (ma_cmp nleb A06 (plain (of_Z 100)))
                        (ma_cmp nleb A09 (plain (of_Z 100)))) in
  and_ u (in_daylight SOZ).

(** Lines 294-295. *)
Definition useA16 (A16 : masked num) (SOZ : masked Z) : masked bool :=
  let u := and_ (ma_cmp ngtb A16 (plain small))
                (ma_cmp nleb A16 (plain (of_Z 100))) in
  and_ u (in_daylight SOZ).

(** Lines 296-298. *)
Definition useT37 (A16 T37 T11 : masked num) (SOZ : masked Z) : masked bool :=
  let u := and_ (ma_invert (useA16 A16 SOZ))
                (ma_cmp ngtb T37 (plain (of_Z 50))) in
  let u := and_ u (and_ (ma_cmp nltb T37 (plain (of_Z 400)))
                        (ma_cmp ngtb T11 (plain (of_Z 50)))) in
  and_ u (and_ (and_ (ma_cmp nltb T11 (plain (of_Z 400)))
                     (ma_cmp Z.gtb SOZ (plain SOZ_LOWLIM)))
               (ma_cmp Z.ltb SOZ (plain SOZ_HIGHLIM))).

(** Line 415, [useVAR3 = useA16 + useT37]. *)
Definition useVAR3_of (A16 T37 T11 : masked num) (SOZ : masked Z)
    : masked bool :=
  ma_binop orb (useA16 A16 SOZ) (useT37 A16 T37 T11 SOZ).



(** [a.any()] on a masked array: masked elements count as false. *)
Definition ma_any (a : array (masked bool)) : bool :=
  existsb (fun p => negb (mask (item_at a p)) && data (item_at a p))
          (pixels (shape a)).

(** Lines 398-413, the choice of the third feature: the likelihoods of
    the 3.7 micron feature, overwritten where [useA16] selects by those of
    the 1.6 micron feature.  [None] stands for [anyVAR3 = False]: [pVAR3g*]
    are then not bound. *)
Definition select_VAR3 (useT37 useA16 : array (masked bool))
    (pT3711 pA1606 : array likelihoods) : option (array likelihoods) :=
  if ma_any useT37 then
    if ma_any useA16 then
      Some (Array (shape pT3711)
              (fun r c => if data (item useA16 r c) then item pA1606 r c
                          else item pT3711 r c))
    else Some pT3711
  else if ma_any useA16 then Some pA1606
  else None.

End Availability.

(** A grid holding one value throughout. *)
Definition uniform {A} (s : nat * nat) (x : A) : array A :=
  Array s (fun _ _ => x).

(** * Properties *)

(** ** The end-to-end example *)

(** C7: reflectance 50, ice mean 60, ice standard deviation 6, class
    clear/water and angle 45 give [100*50/(60-3)], about 87.72: the binary64
    value nearest to 5000/57, below the clamp, not zero and not masked; in
    exact arithmetic 5000/57 itself. *)
Theorem example_pixel_87_72 :
  take_row (constant_table (N := binary64) 60%float 6%float)
           (coeff_index (plain 45%Z)) = Some (45%float, 60%float, 6%float)
  /\ compute_sic_px (N := binary64) (plain 50%float) (plain 1%Z)
       (45%float, 60%float, 6%float) (plain 45%Z)
     = Masked 0x1.5ee08fb823ee1p+6%float false
  /\ (87.71 <? 0x1.5ee08fb823ee1p+6)%float = true
  /\ (0x1.5ee08fb823ee1p+6 <? 87.73)%float = true
  /\ mask (compute_sic_px (N := exact) (plain 50) (plain 1%Z)
             (45, 60, 6) (plain 45%Z)) = false
  /\ data (compute_sic_px (N := exact) (plain 50) (plain 1%Z)
             (45, 60, 6) (plain 45%Z)) == 5000 # 57.
Proof.
  repeat split; vm_compute; reflexivity.
Qed.

(** ** Coefficients *)

Section CoefficientFlags.
Context {N : Number}.


Lemma ice_std_raw_mask (row : coeff_row) :
  mask (ice_std_raw row) = negb (isfinite (col2 row)).
Proof. reflexivity. Qed.



End CoefficientFlags.




(** The flag of a missing mean does not reach the returned field either:
    [np.where] drops it and line 112 builds the mask from the cloud mask and
    the exclusion mask alone. *)
Lemma zero_mean_pixel_is_valid :
  let row : coeff_row (N := binary64) := (45%float, 0%float, 6%float) in
  mask (ice_mean_of row) = true
  /\ mask (compute_sic_px (N := binary64) (plain 50%float) (plain 4%Z) row
             (plain 45%Z)) = false.
Proof. repeat split. Qed.

(** ** The water boundary and monotonicity *)

Section WaterBoundary.
Context {N : Number}.



End WaterBoundary.

(** Exact arithmetic: the comparisons of [exact] are those of the rationals. *)
Section Exact.


Lemma exact_leb (a b : Q) : @nleb exact a b = true <-> a <= b.
Proof. cbn. apply Qle_bool_iff. Qed.

Lemma exact_ltb_false (a b : Q) : @nltb exact a b = false <-> b <= a.
Proof.
  cbn. rewrite negb_false_iff. apply Qle_bool_iff.
Qed.









End Exact.







(** ** The quality check of the classifier *)



Section QualityCheck.
Context {N : Number}.

(** The numbers of this instance cannot be above 1 and below 0 at once. *)
Hypothesis gt1_lt0 : forall x : num, ngtb x (of_Z 1) && nltb x (of_Z 0) = false.





End QualityCheck.




(** C8, the code at the failing input: the three posteriors 2, -0.5 and -0.5
    are all outside [0,1] and the band [A06] has a masked element, yet no
    output is set to -999. *)
Lemma no_sentinel_when_all_out_of_range :
  let valid (x : float) : masked (@num binary64) := plain x in
  let pVAR1 :=
    Likelihoods (valid 4%float) (valid (-1)%float) (valid (-1)%float) in
  let pVAR2 :=
    Likelihoods (valid 0.5%float) (valid 0.5%float) (valid 0.5%float) in
  calc_wic_prob_px pVAR1 pVAR2 pVAR2 false (plain false) true
  = Posteriors (valid 2%float) (valid (-0.5)%float) (valid (-0.5)%float).
Proof. reflexivity. Qed.

(** ** Normalisation of the posteriors *)







(** ** Accumulation of the validity mask through [main] *)

Section MaskAccumulation.
Context {N : Number}.

Lemma compute_sic_px_mask (dat : masked num) (cloudmask : masked Z)
    (row : coeff_row) (soz : masked Z) :
  mask (compute_sic_px dat cloudmask row soz)
  = if mask cloudmask || mask soz || mask dat then mask cloudmask
    else named_exclusion dat cloudmask row soz.
Proof.
  unfold compute_sic_px, exclusion_mask, named_exclusion, cm_is, ma_eq,
    ma_binop, ma_cmp, plain.
  cbn [data mask].
  destruct (mask cloudmask), (mask soz), (mask dat); cbn; reflexivity.
Qed.



Lemma compute_sic_item (dat : array (masked num)) (cloudmask : array (masked Z))
    (coeffs : list coeff_row) (coeff_indices : array Z)
    (lons lats : array (masked num)) (soz : array (masked Z))
    (sic : array (masked num)) :
  compute_sic dat cloudmask coeffs coeff_indices lons lats soz = Some sic ->
  forall r c,
    item sic r c
    = match take_row coeffs (item coeff_indices r c) with
      | Some row => compute_sic_px (item dat r c) (item cloudmask r c) row
                                   (item soz r c)
      | None => Masked (of_Z 0) true
      end.
Proof.
  unfold compute_sic. destruct (_ && _); [|discriminate].
  intros H. injection H as <-. reflexivity.
Qed.


End MaskAccumulation.




(** ** Connected components *)

Local Open Scope nat_scope.

Lemma pixel_eqb_eq (p q : pixel) : pixel_eqb p q = true <-> p = q.
Proof.
  destruct p as [r c], q as [r' c']. unfold pixel_eqb. cbn [fst snd].
  rewrite andb_true_iff, !Nat.eqb_eq. split.
  - intros [-> ->]. reflexivity.
  - intros H. injection H as -> ->. split; reflexivity.
Qed.

Lemma pixel_eqb_refl (p : pixel) : pixel_eqb p p = true.
Proof. now apply pixel_eqb_eq. Qed.

Lemma memb_In (p : pixel) (l : list pixel) : memb p l = true <-> In p l.
Proof.
  unfold memb. rewrite existsb_exists. split.
  - intros [q [Hq E]]. apply pixel_eqb_eq in E. now subst.
  - intros H. exists p. split; [exact H|apply pixel_eqb_refl].
Qed.

Lemma memb_false (p : pixel) (l : list pixel) : memb p l = false <-> ~ In p l.
Proof.
  rewrite <- memb_In. destruct (memb p l); intuition congruence.
Qed.

Lemma NoDup_list_prod {A B} (l : list A) (l' : list B) :
  NoDup l -> NoDup l' -> NoDup (list_prod l l').
Proof.
  intros Hl Hl'. induction Hl as [|x l Hx Hl IH]; cbn; [constructor|].
  apply NoDup_app.
  - clear -Hl'. induction Hl' as [|y l' Hy Hl' IH]; cbn; constructor; auto.
    rewrite in_map_iff. intros [z [E Hz]]. injection E as ->. contradiction.
  - exact IH.
  - intros [a b] Hm Hp. apply in_map_iff in Hm. apply in_prod_iff in Hp.
    destruct Hm as [z [E _]]. injection E as -> _. tauto.
Qed.

Lemma pixels_NoDup (s : nat * nat) : NoDup (pixels s).
Proof. apply NoDup_list_prod; apply seq_NoDup. Qed.

Lemma pixels_In (s : nat * nat) (p : pixel) :
  In p (pixels s) <-> fst p < fst s /\ snd p < snd s.
Proof.
  destruct p as [r c]. unfold pixels, pixel. rewrite in_prod_iff, !in_seq.
  cbn [fst snd]. lia.
Qed.

Lemma foreground_NoDup (input : array bool) : NoDup (foreground input).
Proof. apply NoDup_filter, pixels_NoDup. Qed.

Lemma foreground_In (input : array bool) (p : pixel) :
  In p (foreground input)
  <-> In p (pixels (shape input)) /\ item_at input p = true.
Proof. apply filter_In. Qed.

Lemma adj4_sym (p q : pixel) : adj4 p q = adj4 q p.
Proof.
  unfold adj4. rewrite (Nat.eqb_sym (fst p)), (Nat.eqb_sym (snd p)).
  rewrite (orb_comm (S (snd p) =? snd q)), (orb_comm (S (fst p) =? fst q)).
  reflexivity.
Qed.


Lemma filter_nil {A} (f : A -> bool) (l : list A) :
  filter f l = [] <-> forall x, In x l -> f x = false.
Proof.
  induction l as [|a l IH]; cbn.
  - split; [intros _ x []|reflexivity].
  - destruct (f a) eqn:E; split.
    + discriminate.
    + intros H. specialize (H a (or_introl eq_refl)). congruence.
    + intros H x [<-|Hx]; [exact E|]. now apply IH.
    + intros H. apply IH. intros x Hx. apply H. now right.
Qed.

Section Flood.
Variable adj : pixel -> pixel -> bool.
Hypothesis adj_sym : forall p q, adj p q = adj q p.
Variable fg : list pixel.
Hypothesis fg_NoDup : NoDup fg.

Lemma grow_step_In (comp : list pixel) (q : pixel) :
  In q (grow_step adj fg comp)
  <-> In q comp
      \/ (In q fg /\ ~ In q comp /\ exists s, In s comp /\ adj q s = true).
Proof.
  unfold grow_step. rewrite in_app_iff, filter_In, andb_true_iff,
    negb_true_iff, memb_false, existsb_exists. tauto.
Qed.

Lemma grow_step_incl (comp : list pixel) :
  incl comp fg -> incl (grow_step adj fg comp) fg.
Proof.
  intros H q Hq. apply grow_step_In in Hq. destruct Hq as [Hq|[Hq _]]; auto.
Qed.

Lemma grow_step_NoDup (comp : list pixel) :
  NoDup comp -> NoDup (grow_step adj fg comp).
Proof.
  intros H. unfold grow_step. apply NoDup_app; [exact H| |].
  - now apply NoDup_filter.
  - intros q Hq Hf. apply filter_In in Hf. destruct Hf as [_ Hf].
    apply andb_true_iff in Hf. destruct Hf as [Hf _].
    apply negb_true_iff, memb_false in Hf. contradiction.
Qed.

Lemma closed_iff_nothing_new (comp : list pixel) :
  closed adj fg comp
  <-> filter (fun q => negb (memb q comp) && existsb (adj q) comp) fg = [].
Proof.
  rewrite filter_nil. split.
  - intros Hc q Hq. destruct (memb q comp) eqn:Em; [reflexivity|].
    cbn. destruct (existsb (adj q) comp) eqn:Ee; [|reflexivity].
    apply existsb_exists in Ee. destruct Ee as [s [Hs Ha]].
    apply memb_false in Em. elim Em. now apply (Hc s q).
  - intros H s q Hs Hq Ha. specialize (H q Hq).
    destruct (memb q comp) eqn:Em; [now apply memb_In|].
    cbn in H. assert (existsb (adj q) comp = true); [|congruence].
    apply existsb_exists. now exists s.
Qed.

Lemma closed_grow_step (comp : list pixel) :
  closed adj fg comp -> grow_step adj fg comp = comp.
Proof.
  intros H. apply closed_iff_nothing_new in H. unfold grow_step.
  rewrite H. apply app_nil_r.
Qed.

Lemma closed_grow (n : nat) (comp : list pixel) :
  closed adj fg comp -> grow adj fg n comp = comp.
Proof.
  intros H. induction n as [|n IH]; cbn; [reflexivity|].
  rewrite closed_grow_step by exact H. exact IH.
Qed.

(** Each round either adds an element or has reached a closed set; the
    foreground bounds the number of rounds. *)
Lemma grow_closed (n : nat) : forall comp : list pixel,
  NoDup comp -> incl comp fg -> length fg <= length comp + n ->
  closed adj fg (grow adj fg n comp).
Proof.
  induction n as [|n IH]; intros comp Hnd Hin Hlen; cbn [grow].
  - intros s q _ Hq _.
    apply (@NoDup_length_incl _ comp fg Hnd); [lia|exact Hin|exact Hq].
  - destruct (filter (fun q => negb (memb q comp) && existsb (adj q) comp) fg)
      as [|x new] eqn:E.
    + assert (Hc : closed adj fg comp) by now apply closed_iff_nothing_new.
      rewrite closed_grow_step by exact Hc.
      rewrite closed_grow by exact Hc. exact Hc.
    + apply IH.
      * now apply grow_step_NoDup.
      * now apply grow_step_incl.
      * unfold grow_step. rewrite E, length_app. cbn [length]. lia.
Qed.

Lemma grow_extends (n : nat) : forall comp : list pixel,
  incl comp (grow adj fg n comp).
Proof.
  induction n as [|n IH]; intros comp q Hq; cbn [grow]; [exact Hq|].
  apply IH. apply grow_step_In. now left.
Qed.

Lemma grow_NoDup (n : nat) : forall comp : list pixel,
  NoDup comp -> NoDup (grow adj fg n comp).
Proof.
  induction n as [|n IH]; intros comp H; cbn [grow]; [exact H|].
  apply IH. now apply grow_step_NoDup.
Qed.

Lemma grow_sound (p : pixel) (n : nat) : forall comp : list pixel,
  incl comp fg -> (forall x, In x comp -> connected adj fg p x) ->
  forall x, In x (grow adj fg n comp) -> connected adj fg p x.
Proof.
  induction n as [|n IH]; intros comp Hin Hc x Hx; cbn [grow] in Hx.
  - now apply Hc.
  - apply (IH (grow_step adj fg comp)); [now apply grow_step_incl| |exact Hx].
    intros y Hy. apply grow_step_In in Hy.
    destruct Hy as [Hy|[Hy [_ [s [Hs Ha]]]]]; [now apply Hc|].
    apply rt_trans with s; [now apply Hc|].
    apply rt_step. repeat split; [now apply Hin|exact Hy|].
    rewrite adj_sym. exact Ha.
Qed.

Lemma closed_connected (comp : list pixel) :
  closed adj fg comp ->
  forall p q, connected adj fg p q -> In p comp -> In q comp.
Proof.
  intros Hc p q H. induction H as [x y [_ [Hy Ha]]| |x y z _ IH1 _ IH2]; auto.
  intros Hx. apply (Hc x y Hx Hy). rewrite adj_sym. exact Ha.
Qed.

Lemma component_spec (p q : pixel) :
  In p fg -> (In q (component adj fg p) <-> connected adj fg p q).
Proof.
  intros Hp. unfold component. split.
  - apply grow_sound.
    + intros x [<-|[]]. exact Hp.
    + intros x [<-|[]]. apply rt_refl.
  - intros H.
    apply (closed_connected (comp := grow adj fg (length fg) [p])) with p.
    + apply grow_closed.
      * repeat constructor. intros [].
      * intros x [<-|[]]. exact Hp.
      * lia.
    + exact H.
    + apply grow_extends. now left.
Qed.

Lemma component_NoDup (p : pixel) : NoDup (component adj fg p).
Proof. apply grow_NoDup. repeat constructor. intros []. Qed.

Lemma connected_sym (p q : pixel) :
  connected adj fg p q -> connected adj fg q p.
Proof.
  intros H. induction H as [x y [Hx [Hy Ha]]|x|x y z _ IH1 _ IH2].
  - apply rt_step. repeat split; auto. now rewrite adj_sym.
  - apply rt_refl.
  - now apply rt_trans with y.
Qed.

Lemma connected_in_fg (p q : pixel) :
  In p fg -> connected adj fg p q -> In q fg.
Proof.
  intros Hp H. induction H as [x y [_ [Hy _]]| |x y z _ IH1 _ IH2]; auto.
Qed.

End Flood.

Lemma hd_In_nonempty {A} (d : A) (l : list A) : l <> [] -> In (hd d l) l.
Proof. destruct l; [congruence|]. intros _. now left. Qed.

Lemma hd_indep {A} (d d' : A) (l : list A) : l <> [] -> hd d l = hd d' l.
Proof. destruct l; [congruence|reflexivity]. Qed.

Lemma index_of_lt (x : pixel) (l : list pixel) :
  In x l -> index_of x l < length l.
Proof.
  induction l as [|y l IH]; cbn; [intros []|].
  intros H. destruct (pixel_eqb x y) eqn:E; [lia|].
  destruct H as [->|H]; [rewrite pixel_eqb_refl in E; discriminate|].
  specialize (IH H). lia.
Qed.

Lemma index_of_inj (x y : pixel) (l : list pixel) :
  In x l -> In y l -> index_of x l = index_of y l -> x = y.
Proof.
  induction l as [|z l IH]; cbn; [intros []|].
  intros Hx Hy.
  destruct (pixel_eqb x z) eqn:Ex, (pixel_eqb y z) eqn:Ey;
    try apply pixel_eqb_eq in Ex; try apply pixel_eqb_eq in Ey;
    try discriminate; [congruence|].
  intros H. injection H as H.
  destruct Hx as [->|Hx]; [rewrite pixel_eqb_refl in Ex; discriminate|].
  destruct Hy as [->|Hy]; [rewrite pixel_eqb_refl in Ey; discriminate|].
  now apply IH.
Qed.

Section Labelling.
Variable adj : pixel -> pixel -> bool.
Hypothesis adj_sym : forall p q, adj p q = adj q p.
Variable fg : list pixel.
Hypothesis fg_NoDup : NoDup fg.

Lemma component_self (p : pixel) : In p (component adj fg p).
Proof. apply grow_extends. now left. Qed.

Lemma component_ext (p q : pixel) :
  In p fg -> connected adj fg p q ->
  forall x, memb x (component adj fg p) = memb x (component adj fg q).
Proof.
  intros Hp Hpq x.
  assert (Hq : In q fg) by now apply (connected_in_fg Hp Hpq).
  destruct (memb x (component adj fg p)) eqn:E1,
           (memb x (component adj fg q)) eqn:E2; try reflexivity.
  - apply memb_In, (@component_spec adj adj_sym fg fg_NoDup) in E1; [|exact Hp].
    apply memb_false in E2. elim E2.
    apply (@component_spec adj adj_sym fg fg_NoDup); [exact Hq|].
    apply rt_trans with p; [now apply connected_sym|exact E1].
  - apply memb_In, (@component_spec adj adj_sym fg fg_NoDup) in E2; [|exact Hq].
    apply memb_false in E1. elim E1.
    apply (@component_spec adj adj_sym fg fg_NoDup); [exact Hp|].
    now apply rt_trans with q.
Qed.

Lemma component_filter_nonempty (p : pixel) :
  In p fg -> filter (fun q => memb q (component adj fg p)) fg <> [].
Proof.
  intros Hp E.
  assert (H : In p (filter (fun q => memb q (component adj fg p)) fg)).
  { apply filter_In. split; [exact Hp|]. apply memb_In, component_self. }
  rewrite E in H. exact H.
Qed.

Lemma representative_spec (p : pixel) :
  In p fg ->
  In (representative adj fg p) fg
  /\ connected adj fg p (representative adj fg p).
Proof.
  intros Hp. unfold representative.
  pose proof (hd_In_nonempty p (@component_filter_nonempty p Hp)) as H.
  apply filter_In in H. destruct H as [H1 H2]. split; [exact H1|].
  apply (@component_spec adj adj_sym fg fg_NoDup); [exact Hp|].
  now apply memb_In.
Qed.

Lemma representative_connected (p q : pixel) :
  In p fg -> connected adj fg p q ->
  representative adj fg p = representative adj fg q.
Proof.
  intros Hp Hpq. unfold representative.
  rewrite (filter_ext _ _ (@component_ext p q Hp Hpq)).
  apply hd_indep.
  apply component_filter_nonempty. now apply (connected_in_fg Hp Hpq).
Qed.

Lemma representative_eq (p q : pixel) :
  In p fg -> In q fg ->
  representative adj fg p = representative adj fg q ->
  connected adj fg p q.
Proof.
  intros Hp Hq E.
  apply rt_trans with (representative adj fg p).
  - now apply representative_spec.
  - rewrite E. apply connected_sym; [exact adj_sym|].
    now apply representative_spec.
Qed.

Lemma representative_listed (p : pixel) :
  In p fg -> In (representative adj fg p) (representatives adj fg).
Proof.
  intros Hp. destruct (@representative_spec p Hp) as [H1 H2].
  apply filter_In. split; [exact H1|]. apply pixel_eqb_eq.
  symmetry. now apply representative_connected.
Qed.

End Labelling.

Section LabelledArray.
Variable adj : pixel -> pixel -> bool.
Hypothesis adj_sym : forall p q, adj p q = adj q p.
Variable input : array bool.

Lemma label_at (p : pixel) :
  item_at (fst (label_with adj input)) p
  = if memb p (foreground input)
    then S (index_of (representative adj (foreground input) p)
                     (representatives adj (foreground input)))
    else 0.
Proof. destruct p as [r c]. reflexivity. Qed.

Lemma label_background (p : pixel) :
  ~ In p (foreground input) -> item_at (fst (label_with adj input)) p = 0.
Proof.
  intros H. rewrite label_at. apply memb_false in H. now rewrite H.
Qed.

Lemma label_foreground (p : pixel) :
  In p (foreground input) ->
  1 <= item_at (fst (label_with adj input)) p <= snd (label_with adj input).
Proof.
  intros H. rewrite label_at. pose proof H as Hm. apply memb_In in Hm.
  rewrite Hm. cbn [snd label_with].
  pose proof (@index_of_lt _ _ (@representative_listed adj adj_sym _
                                  (foreground_NoDup input) p H)).
  lia.
Qed.

Lemma label_connected (p q : pixel) :
  In p (foreground input) -> In q (foreground input) ->
  item_at (fst (label_with adj input)) p
  = item_at (fst (label_with adj input)) q
  <-> connected adj (foreground input) p q.
Proof.
  intros Hp Hq. rewrite !label_at.
  pose proof Hp as Mp. pose proof Hq as Mq.
  apply memb_In in Mp. apply memb_In in Mq. rewrite Mp, Mq.
  split.
  - intros E. injection E as E.
    apply (@representative_eq adj adj_sym _ (foreground_NoDup input)); auto.
    apply (@index_of_inj _ _ (representatives adj (foreground input)));
      [| |exact E];
      now apply (@representative_listed adj adj_sym _ (foreground_NoDup input)).
  - intros H. f_equal. f_equal.
    now apply (@representative_connected adj adj_sym _
                 (foreground_NoDup input)).
Qed.

(** The elements [ndimage.sum] counts under the label of [p] are the
    component of [p]. *)
Lemma labelled_like (p : pixel) :
  In p (foreground input) ->
  let same := filter (fun q => item_at input q
                     && (item_at (fst (label_with adj input)) q
                         =? item_at (fst (label_with adj input)) p))
                     (pixels (shape input)) in
  NoDup same
  /\ forall q, In q same <-> connected adj (foreground input) p q.
Proof.
  intros Hp same. split; [apply NoDup_filter, pixels_NoDup|].
  intros q. unfold same. rewrite filter_In, andb_true_iff, Nat.eqb_eq.
  split.
  - intros [Hq [Hi E]].
    assert (Hf : In q (foreground input)) by now apply foreground_In.
    apply label_connected; auto.
  - intros H.
    assert (Hf : In q (foreground input))
      by now apply (connected_in_fg Hp H).
    pose proof Hf as Hf'. apply foreground_In in Hf'. destruct Hf' as [H1 H2].
    repeat split; auto. symmetry. now apply label_connected.
Qed.

Lemma size_lookup (labels : array nat) (nlabels i : nat) :
  i <= nlabels ->
  nth i (map (fun s => 10 <? s)
             (ndimage_sum input labels (seq 0 (nlabels + 1)))) false
  = (10 <? length (filter (fun q => item_at input q
                                    && (item_at labels q =? i))
                          (pixels (shape input)))).
Proof.
  intros Hi. unfold ndimage_sum. rewrite map_map.
  set (f := fun x => 10 <? length _).
  rewrite (nth_indep _ false (f 0)) by (rewrite length_map, length_seq; lia).
  rewrite map_nth, seq_nth by lia. reflexivity.
Qed.

(** The element is removed exactly when it lies in a component of more
    than 10 elements. *)
Lemma removed_iff_large (p : pixel) :
  nth (item_at (fst (label_with adj input)) p)
      (map (fun s => 10 <? s)
           (ndimage_sum input (fst (label_with adj input))
                        (seq 0 (snd (label_with adj input) + 1)))) false
  = true
  <-> in_large_component adj (foreground input) p.
Proof.
  destruct (memb p (foreground input)) eqn:Em.
  - apply memb_In in Em. pose proof (@label_foreground p Em) as Hl.
    rewrite size_lookup by lia.
    destruct (@labelled_like p Em) as [Hnd Hsame].
    set (same := filter _ _) in *. rewrite Nat.ltb_lt. split.
    + intros H. split; [exact Em|]. exists same. auto.
    + intros [_ [comp [Hc [Hq Hlen]]]].
      assert (length comp <= length same); [|lia].
      apply NoDup_incl_length; [exact Hc|].
      intros q Hin. apply Hsame, Hq, Hin.
  - apply memb_false in Em. rewrite (@label_background p Em).
    rewrite size_lookup by lia.
    assert (E : filter (fun q => item_at input q
                          && (item_at (fst (label_with adj input)) q =? 0))
                  (pixels (shape input)) = []).
    { apply filter_nil. intros q Hq.
      destruct (item_at input q) eqn:Ei; [|reflexivity]. cbn [andb].
      assert (Hf : In q (foreground input)) by now apply foreground_In.
      pose proof (@label_foreground q Hf). apply Nat.eqb_neq. lia. }
    rewrite E. cbn. split; [discriminate|]. intros [H _]. contradiction.
Qed.

End LabelledArray.

(** ** The cloud-mask cleaner *)

Section CleanerSpec.
Context {N : Number}.

Lemma polar_water_spec (cloudmask : masked Z) (lat : masked num) :
  polar_water cloudmask lat
  = negb (mask cloudmask) && negb (mask lat) && (data cloudmask =? 1)%Z
    && ngtb (data lat) (of_Z 80).
Proof.
  unfold polar_water, np_where, cm_is, ma_eq, ma_binop, ma_cmp, plain.
  cbn [data mask].
  destruct (mask cloudmask), (mask lat), (data cloudmask =? 1)%Z,
    (ngtb (data lat) (of_Z 80)); reflexivity.
Qed.

Variable adj : pixel -> pixel -> bool.
Hypothesis adj_sym : forall p q, adj p q = adj q p.

(** [clean_up_with], for the labelling by [adj]: it returns when the shapes
    agree, keeps every mask flag, zeroes the elements of the components of
    more than 10 elements of the selected set and keeps the other values. *)
Lemma clean_up_with_spec (cloudmask : array (masked Z))
    (lats : array (masked num)) :
  shape cloudmask = shape lats ->
  exists out,
    clean_up_with (label_with adj) cloudmask lats = Some out
    /\ shape out = shape cloudmask
    /\ forall r c,
         mask (item out r c) = mask (item cloudmask r c)
         /\ ((in_large_component adj
                (foreground (water_above_80 cloudmask lats)) (r, c)
              /\ data (item out r c) = 0%Z)
             \/ (~ in_large_component adj
                     (foreground (water_above_80 cloudmask lats)) (r, c)
                 /\ data (item out r c) = data (item cloudmask r c))).
Proof.
  intros Hs. unfold clean_up_with.
  assert (E : shape_eqb (shape cloudmask) (shape lats) = true)
    by now apply pixel_eqb_eq.
  rewrite E.
  pose proof (@removed_iff_large adj adj_sym
                (water_above_80 cloudmask lats)) as H.
  destruct (label_with adj (water_above_80 cloudmask lats)) as [labels n].
  cbn [fst snd] in H.
  eexists. split; [reflexivity|]. split; [reflexivity|].
  intros r c. cbn [item data mask]. split; [reflexivity|].
  specialize (H (r, c)). unfold item_at at 1 in H. cbn [fst snd] in H.
  destruct (nth (item labels r c) _ false).
  - left. split; [now apply H|reflexivity].
  - right. split; [|reflexivity]. intros Hl. apply H in Hl. discriminate.
Qed.

End CleanerSpec.



(** A connectivity test: the block of 12 is zeroed, the pair next to it and
    the ice element are untouched. *)
Lemma large_block_zeroed_pair_kept :
  option_map rows_of
             (clean_up_cloudmask large_and_small_blobs (polar_lats (3, 6)))
  = Some [[0;0;0;0;0;1];
          [0;0;0;0;0;1];
          [0;0;0;0;0;4]]%Z.
Proof. vm_compute. reflexivity. Qed.


(** ** Idempotence of the cleaner *)

Lemma connected_mono (adj : pixel -> pixel -> bool) (fg fg' : list pixel)
    (p q : pixel) :
  incl fg' fg -> connected adj fg' p q -> connected adj fg p q.
Proof.
  intros Hi H. induction H as [x y [Hx [Hy Ha]]|x|x y z _ IH1 _ IH2].
  - apply rt_step. repeat split; auto.
  - apply rt_refl.
  - now apply rt_trans with y.
Qed.

Section Idempotence.
Context {N : Number}.
Variables (cloudmask out : array (masked Z)) (lats : array (masked num)).
Hypothesis cleaned : clean_up_cloudmask cloudmask lats = Some out.

Lemma cleaned_shapes : shape cloudmask = shape lats.
Proof.
  unfold clean_up_cloudmask, clean_up_with in cleaned.
  destruct (shape_eqb _ _) eqn:E; [|discriminate]. now apply pixel_eqb_eq.
Qed.

Lemma cleaned_spec :
  shape out = shape cloudmask
  /\ forall r c,
       mask (item out r c) = mask (item cloudmask r c)
       /\ ((in_large_component adj4
              (foreground (water_above_80 cloudmask lats)) (r, c)
            /\ data (item out r c) = 0%Z)
           \/ (~ in_large_component adj4
                   (foreground (water_above_80 cloudmask lats)) (r, c)
               /\ data (item out r c) = data (item cloudmask r c))).
Proof.
  destruct (@clean_up_with_spec N adj4 adj4_sym cloudmask lats cleaned_shapes)
    as [out0 [E H]].
  unfold clean_up_cloudmask, ndimage_label in cleaned. rewrite cleaned in E.
  injection E as <-. exact H.
Qed.

(** What is left of the selected set: its elements outside the large
    components. *)
Lemma remaining_foreground (p : pixel) :
  In p (foreground (water_above_80 out lats)) ->
  In p (foreground (water_above_80 cloudmask lats))
  /\ ~ in_large_component adj4 (foreground (water_above_80 cloudmask lats)) p.
Proof.
  destruct cleaned_spec as [Hs H]. destruct p as [r c].
  rewrite !foreground_In. unfold item_at, water_above_80.
  cbn [fst snd item shape]. rewrite Hs.
  intros [Hp Hw]. destruct (H r c) as [Hm [[Hl Hd]|[Hl Hd]]].
  - rewrite polar_water_spec, Hd, !andb_false_r in Hw. discriminate.
  - rewrite polar_water_spec in *. rewrite <- Hm, <- Hd. auto.
Qed.

Lemma no_large_component_left (p : pixel) :
  ~ in_large_component adj4 (foreground (water_above_80 out lats)) p.
Proof.
  intros [Hp [comp [Hnd [Hiff Hlen]]]].
  destruct (@remaining_foreground p Hp) as [Hf Hsmall].
  destruct (@labelled_like adj4 adj4_sym (water_above_80 cloudmask lats) p Hf)
    as [Hnd' Hsame].
  set (same := filter _ _) in *.
  assert (Hle : length comp <= length same).
  { apply NoDup_incl_length; [exact Hnd|]. intros q Hq.
    apply Hsame.
    apply connected_mono with (foreground (water_above_80 out lats)).
    - intros x Hx. now apply remaining_foreground.
    - now apply Hiff. }
  apply Hsmall. split; [exact Hf|]. exists same. repeat split; auto.
  - now apply Hsame.
  - now apply Hsame.
  - lia.
Qed.

End Idempotence.

(** C4: the cleaner is idempotent.  Its output holds no component of
    clear/water elements above latitude 80 with more than 10 elements, and
    cleaning it again, with the same latitudes, returns an array of the same
    shape with the same elements. *)
Theorem cleaner_idempotent (N : Number) (cloudmask out : array (masked Z))
    (lats : array (masked num)) :
  clean_up_cloudmask cloudmask lats = Some out ->
  (forall p,
     ~ in_large_component adj4 (foreground (water_above_80 out lats)) p)
  /\ exists out',
       clean_up_cloudmask out lats = Some out'
       /\ shape out' = shape out
       /\ forall r c, item out' r c = item out r c.
Proof.
  intros H.
  pose proof (@no_large_component_left N cloudmask out lats H) as Hnone.
  split; [exact Hnone|].
  destruct (@cleaned_spec N cloudmask out lats H) as [Hs _].
  assert (Hs' : shape out = shape lats)
    by (rewrite Hs; apply (@cleaned_shapes N cloudmask out lats H)).
  destruct (@clean_up_with_spec N adj4 adj4_sym out lats Hs')
    as [out' [E [Hs'' Hp]]].
  exists out'. split; [exact E|]. split; [exact Hs''|].
  intros r c. destruct (Hp r c) as [Hm [[Hl _]|[_ Hd]]].
  - elim (Hnone _ Hl).
  - destruct (item out' r c), (item out r c). cbn in *. congruence.
Qed.

Lemma cleaner_idempotent_witness :
  exists out,
    clean_up_cloudmask large_and_small_blobs (polar_lats (3, 6)) = Some out
    /\ exists out',
         clean_up_cloudmask out (polar_lats (3, 6)) = Some out'
         /\ shape out' = shape out
         /\ forall r c, item out' r c = item out r c.
Proof.
  destruct (@clean_up_with_spec binary64 adj4 adj4_sym large_and_small_blobs
              (polar_lats (3, 6)) eq_refl) as [out [E _]].
  exists out. split; [exact E|].
  apply (proj2 (@cleaner_idempotent binary64 _ out (polar_lats (3, 6)) E)).
Defined.

(** * Further properties *)

Local Open Scope Q_scope.

(** ** The range of the concentration *)

Section Selections.
Context {N : Number}.

(** Lines 108-110 leave 0, 100 or a quotient that is not above 100. *)
Lemma sic_values_cases (dat : masked num) (cloudmask : masked Z)
    (row : coeff_row) :
  sic_values dat cloudmask row = of_Z 0
  \/ sic_values dat cloudmask row = of_Z 100
  \/ (sic_values dat cloudmask row = data (raw_sic dat row)
      /\ ngtb (data (raw_sic dat row)) (of_Z 100) = false).
Proof.
  unfold sic_values, np_where.
  destruct (data (ma_eq Bool.eqb (water_mask dat cloudmask) (plain true)));
    [now left|].
  destruct (data (ma_cmp nleb dat (plain (of_Z water_threshold))));
    [now left|].
  change (data (ma_cmp ngtb (raw_sic dat row) (plain (of_Z 100))))
    with (ngtb (data (raw_sic dat row)) (of_Z 100)).
  destruct (ngtb (data (raw_sic dat row)) (of_Z 100)) eqn:E.
  - right. now left.
  - right. right. split; reflexivity.
Qed.

End Selections.

Lemma sic_not_above_100_binary64 (dat : masked (@num binary64))
    (cloudmask : masked Z) (row : coeff_row (N := binary64))
    (soz : masked Z) :
  (100 <? data (compute_sic_px dat cloudmask row soz))%float = false.
Proof.
  unfold compute_sic_px; cbn [data].
  destruct (sic_values_cases dat cloudmask row) as [E|[E|[E H]]]; rewrite E.
  - reflexivity.
  - reflexivity.
  - exact H.
Qed.

Lemma sic_at_most_100 (dat : masked (@num exact)) (cloudmask : masked Z)
    (row : coeff_row) (soz : masked Z) :
  data (compute_sic_px dat cloudmask row soz) <= 100.
Proof.
  unfold compute_sic_px; cbn [data].
  destruct (sic_values_cases dat cloudmask row) as [E|[E|[E H]]]; rewrite E.
  - discriminate.
  - discriminate.
  - unfold ngtb in H. now apply exact_ltb_false in H.
Qed.

(** X1: no element of the field [compute_sic] returns is above 100, whatever
    the inputs: in binary64 the comparison [100 < sic] is false, in exact
    arithmetic [sic <= 100]. *)
Theorem sic_never_above_100 :
  (forall (dat : masked (@num binary64)) cloudmask row soz,
      (100 <? data (compute_sic_px dat cloudmask row soz))%float = false)
  /\ (forall (dat : masked (@num exact)) cloudmask row soz,
        data (compute_sic_px dat cloudmask row soz) <= 100).
Proof.
  split; [exact sic_not_above_100_binary64|exact sic_at_most_100].
Qed.






(** X4: where the reflectance and the angle are unmasked, an element of
    the field [compute_sic] returns is invalid exactly when the cloud mask's
    flag is set or one of the conditions of line 103 holds; nothing else
    (a missing or non-finite coefficient, a division by zero) invalidates
    it. *)
Theorem sic_invalid_iff_flag_or_exclusion (N : Number) (dat : masked num)
    (cloudmask : masked Z) (row : coeff_row) (soz : masked Z) :
  mask soz = false -> mask dat = false ->
  mask (compute_sic_px dat cloudmask row soz)
  = mask cloudmask || named_exclusion dat cloudmask row soz.
Proof.
  intros Hs Hd. rewrite compute_sic_px_mask, Hs, Hd.
  destruct (mask cloudmask); reflexivity.
Qed.

Lemma sic_invalid_iff_flag_or_exclusion_witness :
  mask (compute_sic_px (N := binary64) (plain 50%float) (plain 2%Z)
          (45%float, 0%float, PrimFloat.nan) (plain 45%Z))
  = false || named_exclusion (N := binary64) (plain 50%float) (plain 2%Z)
               (45%float, 0%float, PrimFloat.nan) (plain 45%Z).
Proof.
  apply (@sic_invalid_iff_flag_or_exclusion binary64 (plain 50%float)
           (plain 2%Z) (45%float, 0%float, PrimFloat.nan) (plain 45%Z));
    reflexivity.
Defined.

(** ** The coefficient bin and the exceptions of the pipeline *)

Local Open Scope Z_scope.

(** X5: the coefficient bin [main] computes is never negative; for an
    unmasked angle it is the angle itself when that lies in [0,89] and the
    fallback 0 otherwise, so it stays in [0,89]. *)
Theorem coeff_index_in_table (SOZ : masked Z) :
  0 <= coeff_index SOZ
  /\ (mask SOZ = false ->
      coeff_index SOZ <= 89
      /\ (0 <= data SOZ <= 89 -> coeff_index SOZ = data SOZ)
      /\ (data SOZ < 0 \/ 89 < data SOZ -> coeff_index SOZ = 0)).
Proof.
  unfold coeff_index, np_where, ma_binop, ma_cmp, plain, SOZ_LOWLIM,
    SOZ_HIGHLIM.
  cbn [data mask]. rewrite !orb_false_r, orb_diag.
  destruct (mask SOZ); cbn [orb].
  - split; [|discriminate].
    destruct (data SOZ >=? 0) eqn:E; [|lia]. apply Z.geb_le in E. lia.
  - destruct (data SOZ >=? 0) eqn:E1, (data SOZ <=? 89) eqn:E2; cbn [andb];
      try apply Z.geb_le in E1; try apply Z.leb_le in E2;
      try (rewrite Z.geb_leb in E1; apply Z.leb_gt in E1);
      try apply Z.leb_gt in E2;
      (split; [lia|intros _; repeat split; intros; lia]).
Qed.

Lemma coeff_index_in_table_witness :
  coeff_index (plain 120) <= 89
  /\ (0 <= data (plain 120) <= 89 -> coeff_index (plain 120) = data (plain 120))
  /\ (data (plain 120) < 0 \/ 89 < data (plain 120)
      -> coeff_index (plain 120) = 0).
Proof.
  apply (proj2 (coeff_index_in_table (plain 120))). reflexivity.
Defined.

Section Exceptions.
Context {N : Number}.

Lemma take_row_some (coeffs : list coeff_row) (i : Z) :
  is_some (take_row coeffs i) = true
  <-> - Z.of_nat (length coeffs) <= i < Z.of_nat (length coeffs).
Proof.
  unfold take_row.
  assert (Hn : forall k, is_some (nth_error coeffs k) = true
                         <-> (k < length coeffs)%nat).
  { intros k. rewrite <- nth_error_Some.
    destruct (nth_error coeffs k); cbn; split; congruence. }
  destruct ((0 <=? i) && (i <? Z.of_nat (length coeffs))) eqn:E1.
  - apply andb_true_iff in E1. destruct E1 as [A B].
    apply Z.leb_le in A. apply Z.ltb_lt in B. rewrite Hn. lia.
  - destruct ((- Z.of_nat (length coeffs) <=? i) && (i <? 0)) eqn:E2.
    + apply andb_true_iff in E2. destruct E2 as [A B].
      apply Z.leb_le in A. apply Z.ltb_lt in B. rewrite Hn. lia.
    + cbn. apply andb_false_iff in E1. apply andb_false_iff in E2.
      rewrite Z.leb_gt, Z.ltb_ge in E1. rewrite Z.leb_gt, Z.ltb_ge in E2.
      split; [discriminate|lia].
Qed.

End Exceptions.

Lemma compute_sic_defined (N : Number) (dat : array (masked num))
    (cloudmask : array (masked Z)) (coeffs : list coeff_row)
    (coeff_indices : array Z) (lons lats : array (masked num))
    (soz : array (masked Z)) :
  shape dat = shape cloudmask -> shape coeff_indices = shape cloudmask ->
  shape soz = shape cloudmask ->
  (forall p, In p (pixels (shape cloudmask)) ->
     - Z.of_nat (length coeffs) <= item_at coeff_indices p
     < Z.of_nat (length coeffs)) ->
  is_some (compute_sic dat cloudmask coeffs coeff_indices lons lats soz)
  = true.
Proof.
  intros H1 H2 H3 H4. unfold compute_sic.
  destruct (_ && _ && _ && _) eqn:E; cbn [is_some]; [reflexivity|].
  rewrite <- E. unfold shape_eqb.
  rewrite (proj2 (pixel_eqb_eq _ _) H1), (proj2 (pixel_eqb_eq _ _) H2),
    (proj2 (pixel_eqb_eq _ _) H3).
  cbn [andb]. apply forallb_forall. intros p Hp.
  now apply take_row_some, H4.
Qed.



Lemma coeff_index_unmasked_range (SOZ : masked Z) :
  mask SOZ = false -> 0 <= coeff_index SOZ <= 89.
Proof.
  unfold coeff_index, np_where, ma_binop, ma_cmp, plain, SOZ_LOWLIM,
    SOZ_HIGHLIM.
  cbn [data mask]. intros ->. cbn [orb].
  destruct (data SOZ >=? 0) eqn:E1, (data SOZ <=? 89) eqn:E2; cbn [andb];
    lia.
Qed.

Section MainShape.
Context {N : Number}.

Lemma compute_sic_shape (dat : array (masked num))
    (cloudmask : array (masked Z)) (coeffs : list coeff_row)
    (coeff_indices : array Z) (lons lats : array (masked num))
    (soz : array (masked Z)) (sic : array (masked num)) :
  compute_sic dat cloudmask coeffs coeff_indices lons lats soz = Some sic ->
  shape sic = shape cloudmask.
Proof.
  unfold compute_sic. destruct (_ && _); [|discriminate].
  intros H. injection H as <-. reflexivity.
Qed.

(** The elements of the field [main] hands on, in terms of the cleaned
    cloud mask. *)
Lemma main_sic_item (vis09 lons lats : array (masked num))
    (cloudmask SOZ : array (masked Z)) (mean_coeffs : list coeff_row)
    (extent_mask land_mask : array bool) (out : array (masked num)) :
  main_sic vis09 lons lats cloudmask SOZ mean_coeffs extent_mask land_mask
  = Some out ->
  exists cleaned,
    clean_up_cloudmask cloudmask lats = Some cleaned
    /\ forall r c,
         item out r c
         = apply_mask_px (item land_mask r c)
             (mask_extent_px
                match take_row mean_coeffs (coeff_index (item SOZ r c)) with
                | Some row => compute_sic_px (item vis09 r c)
                                (item cleaned r c) row (item SOZ r c)
                | None => Masked (of_Z 0) true
                end
                (item extent_mask r c)).
Proof.
  unfold main_sic, bind.
  destruct (clean_up_cloudmask cloudmask lats) as [cm'|] eqn:Ec;
    [|discriminate].
  destruct (compute_sic _ _ _ _ _ _ _) as [sic|] eqn:Es; [|discriminate].
  destruct (mask_extent sic extent_mask) as [sic'|] eqn:Ee; [|discriminate].
  intros Ha. exists cm'. split; [reflexivity|]. intros r c.
  pose proof (compute_sic_item _ _ _ _ _ _ _ Es r c) as Hsic.
  cbn [item] in Hsic. rewrite <- Hsic.
  unfold mask_extent in Ee. destruct (shape_eqb _ _); [|discriminate].
  injection Ee as <-.
  unfold apply_mask in Ha. destruct (shape_eqb _ _); [|discriminate].
  injection Ha as <-. reflexivity.
Qed.

End MainShape.

Lemma main_sic_defined (N : Number) (vis09 lons lats : array (masked num))
    (cloudmask SOZ : array (masked Z)) (mean_coeffs : list coeff_row)
    (extent_mask land_mask : array bool) :
  shape vis09 = shape cloudmask -> shape lats = shape cloudmask ->
  shape SOZ = shape cloudmask -> shape extent_mask = shape cloudmask ->
  shape land_mask = shape cloudmask ->
  (90 <= length mean_coeffs)%nat ->
  (forall p, In p (pixels (shape cloudmask)) -> mask (item_at SOZ p) = false) ->
  exists out,
    main_sic vis09 lons lats cloudmask SOZ mean_coeffs extent_mask land_mask
    = Some out
    /\ shape out = shape cloudmask.
Proof.
  intros Hv Hl Hs He Hd Hn Hm. unfold main_sic, bind.
  destruct (@clean_up_with_spec N adj4 adj4_sym cloudmask lats (eq_sym Hl))
    as [cm' [Ec [Hc _]]].
  unfold clean_up_cloudmask, ndimage_label. rewrite Ec.
  destruct (compute_sic vis09 cm' mean_coeffs
              (Array (shape SOZ) (fun r c => coeff_index (item SOZ r c)))
              lons lats SOZ) as [sic|] eqn:Es.
  - pose proof (compute_sic_shape _ _ _ _ _ _ _ Es) as Hsic.
    unfold mask_extent.
    assert (E1 : shape_eqb (shape extent_mask) (shape sic) = true)
      by (apply pixel_eqb_eq; congruence).
    rewrite E1. unfold apply_mask. cbn [shape].
    assert (E2 : shape_eqb (shape land_mask) (shape sic) = true)
      by (apply pixel_eqb_eq; congruence).
    rewrite E2. eexists. split; [reflexivity|]. cbn [shape]. congruence.
  - assert (H : is_some (compute_sic vis09 cm' mean_coeffs
                (Array (shape SOZ) (fun r c => coeff_index (item SOZ r c)))
                lons lats SOZ) = true); [|rewrite Es in H; discriminate].
    apply compute_sic_defined; cbn [shape]; try congruence; intros p Hp;
      unfold item_at; cbn [item];
      assert (R : 0 <= coeff_index (item_at SOZ p) <= 89)
        by (apply coeff_index_unmasked_range, Hm; congruence);
      unfold item_at in R; lia.
Qed.



Local Open Scope Q_scope.



(** ** What the cleaner changes *)

Local Open Scope nat_scope.

Section CleanerEffects.
Context {N : Number}.

Lemma selected_element (cloudmask : array (masked Z))
    (lats : array (masked num)) (r c : nat) :
  In (r, c) (foreground (water_above_80 cloudmask lats)) ->
  (r < fst (shape cloudmask) /\ c < snd (shape cloudmask))
  /\ mask (item cloudmask r c) = false /\ mask (item lats r c) = false
  /\ data (item cloudmask r c) = 1%Z
  /\ ngtb (data (item lats r c)) (of_Z 80) = true.
Proof.
  intros H. apply foreground_In in H. destruct H as [Hp Hw].
  apply pixels_In in Hp. cbn [fst snd shape water_above_80] in Hp.
  unfold item_at, water_above_80 in Hw. cbn [fst snd item] in Hw.
  rewrite polar_water_spec in Hw.
  apply andb_true_iff in Hw. destruct Hw as [Hw H4].
  apply andb_true_iff in Hw. destruct Hw as [Hw H3].
  apply andb_true_iff in Hw. destruct Hw as [H1 H2].
  apply negb_true_iff in H1. apply negb_true_iff in H2.
  apply Z.eqb_eq in H3. auto.
Qed.

Lemma large_component_within (adj : pixel -> pixel -> bool)
    (fg : list pixel) (p : pixel) :
  in_large_component adj fg p -> 10 < length fg.
Proof.
  intros [Hp [comp [Hnd [Hiff Hlen]]]].
  assert (length comp <= length fg); [|lia].
  apply NoDup_incl_length; [exact Hnd|].
  intros q Hq. apply Hiff in Hq. now apply (connected_in_fg Hp Hq).
Qed.

Lemma large_component_shared (adj : pixel -> pixel -> bool)
    (fg : list pixel) (p q : pixel) :
  (forall a b, adj a b = adj b a) ->
  connected adj fg p q ->
  in_large_component adj fg p -> in_large_component adj fg q.
Proof.
  intros Hsym Hpq [Hp [comp [Hnd [Hiff Hlen]]]].
  split; [now apply (connected_in_fg Hp Hpq)|].
  exists comp. repeat split; auto.
  - intros Hx. apply Hiff in Hx.
    apply rt_trans with p; [now apply connected_sym|exact Hx].
  - intros Hx. apply Hiff. now apply rt_trans with q.
Qed.

End CleanerEffects.

(** X9: the cleaner changes nothing but clear/water elements above
    latitude 80 that are unmasked in both grids, and it changes them to 0:
    a cloud, ice or masked element, or one at or below 80 degrees, comes
    back as it was. *)
Theorem cleaner_touches_only_polar_water (N : Number)
    (cloudmask out : array (masked Z)) (lats : array (masked num))
    (r c : nat) :
  clean_up_cloudmask cloudmask lats = Some out ->
  item out r c <> item cloudmask r c ->
  data (item out r c) = 0%Z
  /\ (r < fst (shape cloudmask) /\ c < snd (shape cloudmask))
  /\ mask (item cloudmask r c) = false /\ mask (item lats r c) = false
  /\ data (item cloudmask r c) = 1%Z
  /\ ngtb (data (item lats r c)) (of_Z 80) = true.
Proof.
  intros H Hne.
  destruct (@cleaned_spec N cloudmask out lats H) as [_ Hs].
  destruct (Hs r c) as [Hm [[[Hf _] Hd]|[_ Hd]]].
  - split; [exact Hd|]. now apply selected_element.
  - elim Hne. destruct (item out r c), (item cloudmask r c).
    cbn in *. congruence.
Qed.

Lemma cleaner_touches_only_polar_water_witness :
  exists out,
    clean_up_cloudmask large_and_small_blobs (polar_lats (3, 6)) = Some out
    /\ data (item large_and_small_blobs 0 0) = 1%Z.
Proof.
  destruct (@clean_up_with_spec binary64 adj4 adj4_sym large_and_small_blobs
              (polar_lats (3, 6)) eq_refl) as [out [E [_ Hs]]].
  exists out. split; [exact E|].
  assert (Hne : item out 0 0 <> item large_and_small_blobs 0 0).
  { destruct (Hs 0 0) as [_ [[_ Hd]|[Hn _]]].
    - intros Heq. rewrite Heq in Hd. discriminate.
    - elim Hn. apply (@removed_iff_large adj4 adj4_sym).
      vm_compute. reflexivity. }
  apply (@cleaner_touches_only_polar_water binary64 _ out _ 0 0 E Hne).
Defined.

(** X10: when at most 10 elements are clear/water above latitude 80, none
    at all included, the cleaner returns the cloud mask unchanged. *)
Theorem cleaner_keeps_small_sets (N : Number)
    (cloudmask out : array (masked Z)) (lats : array (masked num)) :
  length (foreground (water_above_80 cloudmask lats)) <= 10 ->
  clean_up_cloudmask cloudmask lats = Some out ->
  shape out = shape cloudmask
  /\ forall r c, item out r c = item cloudmask r c.
Proof.
  intros Hlen H.
  destruct (@cleaned_spec N cloudmask out lats H) as [Hshape Hs].
  split; [exact Hshape|]. intros r c.
  destruct (Hs r c) as [Hm [[Hl _]|[_ Hd]]].
  - apply large_component_within in Hl. lia.
  - destruct (item out r c), (item cloudmask r c). cbn in *. congruence.
Qed.

Lemma cleaner_keeps_small_sets_witness :
  exists out,
    clean_up_cloudmask (cloudmask_of_rows [[1; 4]; [2; 1]]%Z)
                       (polar_lats (2, 2)) = Some out
    /\ forall r c, item out r c
                   = item (cloudmask_of_rows [[1; 4]; [2; 1]]%Z) r c.
Proof.
  destruct (@clean_up_with_spec binary64 adj4 adj4_sym
              (cloudmask_of_rows [[1; 4]; [2; 1]]%Z) (polar_lats (2, 2))
              eq_refl) as [out [E _]].
  exists out. split; [exact E|].
  apply (@cleaner_keeps_small_sets binary64 _ out (polar_lats (2, 2)));
    [|exact E].
  vm_compute. apply le_S, le_S, le_S, le_S, le_S, le_S, le_S, le_S, le_n.
Defined.

(** X11: the cleaner removes components whole: two selected elements
    joined by a chain of edge neighbours come back with the same class,
    both 0 or both 1. *)
Theorem cleaner_removes_components_whole (N : Number)
    (cloudmask out : array (masked Z)) (lats : array (masked num))
    (p q : pixel) :
  clean_up_cloudmask cloudmask lats = Some out ->
  In p (foreground (water_above_80 cloudmask lats)) ->
  connected adj4 (foreground (water_above_80 cloudmask lats)) p q ->
  data (item_at out p) = data (item_at out q).
Proof.
  intros H Hp Hpq.
  assert (Hq : In q (foreground (water_above_80 cloudmask lats)))
    by now apply (connected_in_fg Hp Hpq).
  destruct (@cleaned_spec N cloudmask out lats H) as [_ Hs].
  destruct p as [r c], q as [r' c']. unfold item_at. cbn [fst snd].
  destruct (selected_element _ _ _ _ Hp) as (_ & _ & _ & Dp & _).
  destruct (selected_element _ _ _ _ Hq) as (_ & _ & _ & Dq & _).
  destruct (Hs r c) as [_ [[Lp Ep]|[Lp Ep]]],
           (Hs r' c') as [_ [[Lq Eq]|[Lq Eq]]]; try congruence.
  - elim Lq. now apply (large_component_shared adj4_sym Hpq).
  - elim Lp. apply (large_component_shared adj4_sym (p := (r', c'))); auto.
    now apply connected_sym; [apply adj4_sym|].
Qed.

Lemma cleaner_removes_components_whole_witness :
  exists out,
    clean_up_cloudmask large_and_small_blobs (polar_lats (3, 6)) = Some out
    /\ data (item_at out (0, 0)) = data (item_at out (0, 1)).
Proof.
  destruct (@clean_up_with_spec binary64 adj4 adj4_sym large_and_small_blobs
              (polar_lats (3, 6)) eq_refl) as [out [E _]].
  exists out. split; [exact E|].
  apply (@cleaner_removes_components_whole binary64 _ out _ (0, 0) (0, 1) E).
  - vm_compute. auto.
  - apply rt_step. repeat split; vm_compute; auto.
Defined.

(** X12: what the cleaner removes, [main] hands on as invalid: an element
    of a removed component that is not land, with reflectance and angle
    unmasked, is masked in the final field, the class 0 written by the
    cleaner being one of the classes [compute_sic] excludes. *)
Theorem removed_water_ends_invalid (N : Number)
    (vis09 lons lats : array (masked num))
    (cloudmask SOZ : array (masked Z)) (mean_coeffs : list coeff_row)
    (extent_mask land_mask : array bool) (out : array (masked num))
    (r c : nat) :
  main_sic vis09 lons lats cloudmask SOZ mean_coeffs extent_mask land_mask
  = Some out ->
  in_large_component adj4 (foreground (water_above_80 cloudmask lats))
    (r, c) ->
  item land_mask r c = false ->
  mask (item vis09 r c) = false -> mask (item SOZ r c) = false ->
  mask (item out r c) = true.
Proof.
  intros H Hl Hland Hv Hs.
  destruct (main_sic_item _ _ _ _ _ _ _ _ H) as [cleaned [Ec Hout]].
  rewrite Hout, Hland. clear Hout.
  destruct (@cleaned_spec N cloudmask cleaned lats Ec) as [_ Hc].
  destruct (Hc r c) as [Hm [[_ Hd]|[Hn _]]]; [|contradiction].
  destruct Hl as [Hfg _].
  destruct (selected_element _ _ _ _ Hfg) as (_ & Hcm & _).
  unfold apply_mask_px, mask_extent_px. cbn [Bool.eqb mask data].
  destruct (take_row _ _) as [row|]; [|reflexivity].
  rewrite compute_sic_px_mask, Hm, Hcm, Hs, Hv. cbn [orb].
  unfold named_exclusion. rewrite Hd. reflexivity.
Qed.

Lemma removed_water_ends_invalid_witness :
  exists out,
    main_sic (N := binary64) (uniform (3, 6) (plain 50%float))
      (polar_lats (3, 6)) (polar_lats (3, 6)) large_and_small_blobs
      (uniform (3, 6) (plain 45%Z))
      (constant_table (N := binary64) 60%float 6%float)
      (uniform (3, 6) true) (uniform (3, 6) false)
    = Some out
    /\ mask (item out 0 0) = true.
Proof.
  destruct (@main_sic_defined binary64 (uniform (3, 6) (plain 50%float))
              (polar_lats (3, 6)) (polar_lats (3, 6)) large_and_small_blobs
              (uniform (3, 6) (plain 45%Z))
              (constant_table (N := binary64) 60%float 6%float)
              (uniform (3, 6) true) (uniform (3, 6) false)
              eq_refl eq_refl eq_refl eq_refl eq_refl)
    as [out [E _]].
  - unfold constant_table. rewrite length_map, length_seq.
    repeat apply le_n_S. apply Nat.le_0_l.
  - reflexivity.
  - exists out. split; [exact E|].
    apply (@removed_water_ends_invalid binary64 _ _ _ _ _ _ _ _ out 0 0 E);
      try reflexivity.
    apply (@removed_iff_large adj4 adj4_sym). vm_compute. reflexivity.
Defined.

(** ** The posteriors as probabilities *)

Local Open Scope Q_scope.











(** ** Masked and vanishing likelihoods *)

Lemma ma_divide_masked_r (N : Number) (a b : masked num) :
  mask b = true -> mask (ma_divide a b) = true.
Proof. intros H. unfold ma_divide. cbn [mask]. rewrite H. apply orb_true_r. Qed.

(** X16: a masked likelihood of the first or the second feature never
    comes out as a probability: the three posteriors of the element are
    returned masked, or all three as the unmasked sentinel -999 when the
    quality check holds under the mask. *)
Theorem masked_likelihood_gives_no_probability (N : Number)
    (pVAR1 pVAR2 pVAR3 : likelihoods) (anyVAR3 : bool)
    (useVAR3 : masked bool) (A06_is_masked : bool) :
  mask (gi pVAR1) || mask (gw pVAR1) || mask (gc pVAR1)
  || mask (gi pVAR2) || mask (gw pVAR2) || mask (gc pVAR2) = true ->
  let p := calc_wic_prob_px pVAR1 pVAR2 pVAR3 anyVAR3 useVAR3
             A06_is_masked in
  (mask (pigobs p) = true /\ mask (pcgobs p) = true
   /\ mask (pwgobs p) = true)
  \/ (pigobs p = plain prob_undef /\ pcgobs p = plain prob_undef
      /\ pwgobs p = plain prob_undef).
Proof.
  intros H. cbv zeta. unfold calc_wic_prob_px, quality_check, setitem.
  destruct (data (falsevalue _ _)); [right; repeat split|left].
  cbn [pigobs pcgobs pwgobs].
  unfold stage_b, stage_a, useA06, setitem.
  destruct anyVAR3; [destruct (data useVAR3)|];
    cbn [pigobs pcgobs pwgobs]; repeat split;
    apply ma_divide_masked_r; unfold add_, mul_, ma_binop; cbn [mask];
    destruct (mask (gi pVAR1)), (mask (gw pVAR1)), (mask (gc pVAR1)),
      (mask (gi pVAR2)), (mask (gw pVAR2)), (mask (gc pVAR2));
    try discriminate H; cbn; rewrite ?orb_true_r; reflexivity.
Qed.

Lemma masked_likelihood_gives_no_probability_witness :
  let valid (x : float) : masked (@num binary64) := plain x in
  let invalid (x : float) : masked (@num binary64) := Masked x true in
  let pVAR1 :=
    Likelihoods (invalid 2%float) (valid 1%float) (valid 1%float) in
  let pVAR2 := Likelihoods (valid 1%float) (valid 1%float) (valid 1%float) in
  mask (pigobs (calc_wic_prob_px pVAR1 pVAR2 pVAR2 false (plain false)
                                 false)) = true.
Proof.
  intros valid invalid pVAR1 pVAR2.
  destruct (@masked_likelihood_gives_no_probability binary64 pVAR1 pVAR2
              pVAR2 false (plain false) false eq_refl) as [[H _]|[H _]].
  - exact H.
  - vm_compute in H. discriminate H.
Defined.






(** ** The availability flags and the third feature *)

Section Flags.
Context {N : Number}.

Lemma and_data_true (a b : masked bool) :
  data (and_ a b) = true -> data a = true.
Proof.
  unfold and_, ma_binop. cbn [data].
  destruct (mask a || mask b); [auto|]. intros H.
  now apply andb_true_iff in H.
Qed.

Lemma and_unmasked_true (a b : masked bool) :
  mask (and_ a b) = false -> data (and_ a b) = true ->
  (mask a = false /\ data a = true) /\ (mask b = false /\ data b = true).
Proof.
  unfold and_, ma_binop. cbn [data mask]. intros Hm. rewrite Hm.
  apply orb_false_iff in Hm. intros Hd. apply andb_true_iff in Hd. tauto.
Qed.

Lemma daylight_index (SOZ : masked Z) :
  mask (in_daylight SOZ) = false -> data (in_daylight SOZ) = true ->
  mask SOZ = false /\ (0 < data SOZ < 89)%Z /\ coeff_index SOZ = data SOZ.
Proof.
  intros Hm Hd.
  destruct (and_unmasked_true _ _ Hm Hd) as [[M1 D1] [_ D2]].
  unfold ma_cmp, plain, SOZ_LOWLIM, SOZ_HIGHLIM in *. cbn [data mask] in *.
  apply orb_false_iff in M1. destruct M1 as [M _].
  apply Z.gtb_lt in D1. apply Z.ltb_lt in D2.
  repeat split; try assumption; try lia.
  unfold coeff_index, np_where, ma_binop, ma_cmp, plain, SOZ_LOWLIM,
    SOZ_HIGHLIM.
  cbn [data mask]. rewrite M. cbn [orb].
  replace (data SOZ >=? 0)%Z with true by (symmetry; apply Z.geb_le; lia).
  replace (data SOZ <=? 89)%Z with true by (symmetry; apply Z.leb_le; lia).
  reflexivity.
Qed.

Lemma useA16_daylight (A16 : masked num) (SOZ : masked Z) :
  mask (useA16 A16 SOZ) = false -> data (useA16 A16 SOZ) = true ->
  mask SOZ = false /\ (0 < data SOZ < 89)%Z /\ coeff_index SOZ = data SOZ.
Proof.
  unfold useA16. intros Hm Hd.
  destruct (and_unmasked_true _ _ Hm Hd) as [_ [M D]].
  now apply daylight_index.
Qed.

Lemma useT37_daylight (A16 T37 T11 : masked num) (SOZ : masked Z) :
  mask (useT37 A16 T37 T11 SOZ) = false ->
  data (useT37 A16 T37 T11 SOZ) = true ->
  mask SOZ = false /\ (0 < data SOZ < 89)%Z /\ coeff_index SOZ = data SOZ.
Proof.
  unfold useT37. intros Hm Hd.
  destruct (and_unmasked_true _ _ Hm Hd) as [_ [M D]].
  destruct (and_unmasked_true _ _ M D) as [[M1 D1] [M2 D2]].
  destruct (and_unmasked_true _ _ M1 D1) as [_ [M3 D3]].
  apply daylight_index.
  - unfold in_daylight, and_, ma_binop. cbn [mask].
    rewrite M3, M2. reflexivity.
  - unfold in_daylight, and_, ma_binop. cbn [data mask].
    rewrite M3, M2, D3, D2. reflexivity.
Qed.

End Flags.

(** In double precision [small] is the literal [0.00001] of the source. *)
Lemma small_is_the_literal : @small binary64 = 0.00001%float.
Proof. reflexivity. Qed.

(** X18: the 3.7 micron and the 1.6 micron features are never both
    selected: where the data of [useT37] are true those of [useA16] are
    false, whatever the bands, the angle and their masks. *)
Theorem useT37_excludes_useA16 (N : Number) (A16 T37 T11 : masked num)
    (SOZ : masked Z) :
  data (useA16 A16 SOZ) && data (useT37 A16 T37 T11 SOZ) = false.
Proof.
  destruct (data (useT37 A16 T37 T11 SOZ)) eqn:E;
    [|apply andb_false_r].
  unfold useT37 in E.
  do 3 apply and_data_true in E.
  unfold ma_invert in E. cbn [data] in E.
  apply negb_true_iff in E. rewrite E. reflexivity.
Qed.

(** X19: a feature is used, at an unmasked element of its flag, only in
    daylight: where [useA0906], [useA16], [useT37] or [useVAR3] is unmasked
    and true, the angle is unmasked and strictly between 0 and 89, so the
    coefficient bin of the element is its own angle and never the default
    bin 0. *)
Theorem used_feature_in_daylight (N : Number) (A06 A09 A16 T37 T11 : masked num)
    (SOZ : masked Z) (u : masked bool) :
  u = useA0906 A06 A09 SOZ \/ u = useA16 A16 SOZ
  \/ u = useT37 A16 T37 T11 SOZ \/ u = useVAR3_of A16 T37 T11 SOZ ->
  mask u = false -> data u = true ->
  mask SOZ = false /\ (0 < data SOZ < 89)%Z /\ coeff_index SOZ = data SOZ.
Proof.
  intros [->|[->|[->| ->]]] Hm Hd.
  - unfold useA0906 in *.
    destruct (and_unmasked_true _ _ Hm Hd) as [_ [M D]].
    now apply daylight_index.
  - now apply (useA16_daylight A16).
  - now apply (useT37_daylight A16 T37 T11).
  - unfold useVAR3_of, ma_binop in *. cbn [data mask] in *.
    rewrite Hm in Hd. apply orb_false_iff in Hm. destruct Hm as [M1 M2].
    apply orb_true_iff in Hd. destruct Hd as [D|D].
    + now apply (useA16_daylight A16).
    + now apply (useT37_daylight A16 T37 T11).
Qed.

Lemma used_feature_in_daylight_witness :
  coeff_index (plain 45%Z) = 45%Z.
Proof.
  apply (@used_feature_in_daylight binary64 (plain 20%float) (plain 30%float)
           (plain 10%float) (plain 270%float) (plain 260%float) (plain 45%Z)
           (useA16 (N := binary64) (plain 10%float) (plain 45%Z))).
  - right. left. reflexivity.
  - reflexivity.
  - reflexivity.
Defined.



(** X21: the 1.6 micron feature has priority: whenever the third
    likelihoods are bound, they are those of the 1.6 micron feature at
    every element of the grid where [useA16] is unmasked and true, and
    those of the 3.7 micron feature where [useA16] is false and some
    element uses the 3.7 micron feature. *)
Theorem select_VAR3_prefers_A16 (N : Number)
    (useT37 useA16 : array (masked bool))
    (pT3711 pA1606 v : array likelihoods) (r c : nat) :
  select_VAR3 useT37 useA16 pT3711 pA1606 = Some v ->
  (In (r, c) (pixels (shape useA16)) ->
   mask (item useA16 r c) = false -> data (item useA16 r c) = true ->
   item v r c = item pA1606 r c)
  /\ (ma_any useT37 = true -> data (item useA16 r c) = false ->
      item v r c = item pT3711 r c).
Proof.
  unfold select_VAR3. intros H. split.
  - intros Hp Hm Hd.
    assert (Ha : ma_any useA16 = true).
    { unfold ma_any. apply existsb_exists. exists (r, c).
      split; [exact Hp|]. unfold item_at. cbn [fst snd].
      rewrite Hm, Hd. reflexivity. }
    rewrite Ha in H.
    destruct (ma_any useT37); injection H as <-; [|reflexivity].
    cbn [item]. rewrite Hd. reflexivity.
  - intros Ht Hd. rewrite Ht in H.
    destruct (ma_any useA16); injection H as <-; [|reflexivity].
    cbn [item]. rewrite Hd. reflexivity.
Qed.

Lemma select_VAR3_prefers_A16_witness :
  let valid (x : float) : masked (@num binary64) := plain x in
  let pT := Likelihoods (valid 1%float) (valid 2%float) (valid 3%float) in
  let pA := Likelihoods (valid 4%float) (valid 5%float) (valid 6%float) in
  exists v,
    select_VAR3 (single (plain false)) (single (plain true)) (single pT)
                (single pA) = Some v
    /\ item v 0 0 = pA.
Proof.
  intros valid pT pA. eexists. split; [reflexivity|].
  apply (proj1 (@select_VAR3_prefers_A16 binary64 (single (plain false))
                  (single (plain true)) (single pT) (single pA) _ 0%nat 0%nat
                  eq_refl)).
  - left. reflexivity.
  - reflexivity.
  - reflexivity.
Defined.
